(** * Verification of [encode.py]: Base58 Solana key to decimal list

    The development embeds [solana_private_key_to_decimal_list] from
    [src/encode.py] together with the small part of the Python runtime it
    relies on (exceptions, [str] of an integer, [",".join], [len]) and a
    model of the imported [base58] package.  *)

From Stdlib Require Import List String Ascii Strings.Byte NArith Arith Lia Bool.
Import ListNotations.

Local Open Scope string_scope.
Local Open Scope N_scope.

(* ===================================================================== *)
(** ** Python runtime: exceptions, outcomes and the interpreter state    *)
(* ===================================================================== *)

Module Py.

(** The exception classes that can occur.  [UnicodeEncodeError] is a
    subclass of [ValueError]; [KeyError] is not. *)
Inductive exn_class : Type :=
| ValueError
| UnicodeEncodeError
| KeyError.

Definition exn_class_eqb (c d : exn_class) : bool :=
  match c, d with
  | ValueError, ValueError => true
  | UnicodeEncodeError, UnicodeEncodeError => true
  | KeyError, KeyError => true
  | _, _ => false
  end.

(** [issubclass c d]: class [c] is [d] or derives from it. *)
Definition issubclass (c d : exn_class) : bool :=
  match c, d with
  | UnicodeEncodeError, ValueError => true
  | _, _ => exn_class_eqb c d
  end.

(** An exception object: its class and its message. *)
Record exn : Type := mkExn { cls : exn_class; message : string }.

Definition isinstance (e : exn) (c : exn_class) : bool :=
  issubclass (cls e) c.

(** Python's [str] is [string] here: a text is a sequence of characters
    with code points below 256, those from 128 on being the non-ASCII
    ones; [bytes] is [list byte]. *)

(** The outcome of evaluating a Python expression or call. *)
Inductive result (A : Type) : Type :=
| Return (a : A)
| Raise (e : exn).
Arguments Return {A} a.
Arguments Raise {A} e.

(** What a call can observe and change besides its arguments: the lines
    written to standard output. *)
Record world : Type := mkWorld { stdout : list string }.

(** Computations: a state and exception monad over [world]. *)
Definition M (A : Type) : Type := world -> result A * world.

Definition ret {A} (a : A) : M A := fun w => (Return a, w).

Definition bind {A B} (m : M A) (f : A -> M B) : M B :=
  fun w =>
    match m w with
    | (Return a, w') => f a w'
    | (Raise e, w') => (Raise e, w')
    end.

Definition raise {A} (e : exn) : M A := fun w => (Raise e, w).

(** A pure library call: its outcome does not touch the state. *)
Definition lift {A} (r : result A) : M A := fun w => (r, w).

(** [try: body except c: handler]: an exception that is an instance of
    [c] runs the handler, any other one propagates. *)
Definition try_except {A} (body : M A) (c : exn_class)
                      (handler : exn -> M A) : M A :=
  fun w =>
    match body w with
    | (Return a, w') => (Return a, w')
    | (Raise e, w') =>
        if isinstance e c then handler e w' else (Raise e, w')
    end.

(** [print(s)] *)
Definition print (s : string) : M unit :=
  fun w => (Return tt, {| stdout := stdout w ++ [s] |}).

Declare Scope py_scope.
Delimit Scope py_scope with py.
Notation "x <- m ;; k" := (bind m (fun x => k))
  (at level 61, m at next level, right associativity) : py_scope.
Notation "m ;;; k" := (bind m (fun _ => k))
  (at level 61, right associativity) : py_scope.

(** *** Integers and strings *)

(** Big-endian digits of [n] in base [base], most significant first, by
    repeated [divmod]; [fuel] bounds the number of iterations. *)
Fixpoint digits_loop (fuel : nat) (base n : N) (acc : list N) : list N :=
  match fuel with
  | O => acc
  | S fuel' =>
      if n =? 0 then acc
      else digits_loop fuel' base (n / base) (n mod base :: acc)
  end.

(** The loop runs once per digit; a number has no more digits in a base
    of at least two than it has bits. *)
Definition digits (base n : N) : list N :=
  digits_loop (N.to_nat (N.size n)) base n [].

(** Value of a big-endian digit sequence (Horner's scheme). *)
Definition horner (base : N) (ds : list N) (start : N) : N :=
  fold_left (fun acc d => acc * base + d) ds start.

Definition undigits (base : N) (ds : list N) : N := horner base ds 0.

Definition digit_char (d : N) : ascii := ascii_of_N (48 + d).

(** [str(n)] for a non-negative integer. *)
Definition str (n : N) : string :=
  if n =? 0 then "0"
  else string_of_list_ascii (map digit_char (digits 10 n)).

(** [sep.join(xs)] *)
Fixpoint join (sep : string) (xs : list string) : string :=
  match xs with
  | [] => ""
  | [x] => x
  | x :: rest => x ++ sep ++ join sep rest
  end.

(** [len(xs)] *)
Definition len {A} (xs : list A) : N := N.of_nat (List.length xs).

End Py.

Import Py.

(* ===================================================================== *)
(** ** The imported [base58] package                                     *)
(* ===================================================================== *)

Module base58.

(** Modelled from the spec: the third-party [base58] package that
    [encode.py] imports is not part of [src/].  The definitions below
    follow Step 1 of the converter's design and the glossary: the
    standard alphabet without [0], [O], [I] and [l]; the input read as a
    big-endian base-58 numeral and written as its minimal big-endian byte
    sequence; every leading ['1'] giving one leading zero byte; a
    character outside the alphabet rejected with a [ValueError] (a
    non-ASCII one by the ASCII encoding of the input, whose error class
    derives from [ValueError]); no checksum, no version byte. *)
Definition BITCOIN_ALPHABET : string :=
  "123456789ABCDEFGHJKLMNPQRSTUVWXYZabcdefghijkmnopqrstuvwxyz".

(** Position of [c] in [s], if any. *)
Fixpoint index_of (c : ascii) (s : string) : option N :=
  match s with
  | EmptyString => None
  | String a rest =>
      if Ascii.eqb a c then Some 0
      else option_map N.succ (index_of c rest)
  end.

(** [s[i:i+1]] *)
Definition slice1 (s : string) (i : N) : string :=
  match String.get (N.to_nat i) s with
  | Some c => String c EmptyString
  | None => EmptyString
  end.

Definition is_ascii (c : ascii) : bool := N_of_ascii c <? 128.

(** Modelled from the spec: the ASCII encoding of the input text. *)
Definition scrub_input (v : string) : result string :=
  if forallb is_ascii (list_ascii_of_string v) then Return v
  else Raise (mkExn UnicodeEncodeError
                    "'ascii' codec can't encode character").

(** [v.lstrip(c)] on text and on bytes. *)
Fixpoint lstrip (c : ascii) (v : string) : string :=
  match v with
  | EmptyString => EmptyString
  | String a rest => if Ascii.eqb a c then lstrip c rest else v
  end.

Fixpoint lstrip_bytes (c : byte) (v : list byte) : list byte :=
  match v with
  | [] => []
  | a :: rest => if Byte.eqb a c then lstrip_bytes c rest else v
  end.

(** Modelled from the spec: the base-58 numeral value of [v], most
    significant character first; [decimal] is the value read so far. *)
Fixpoint b58decode_int_loop (v : string) (decimal : N) : result N :=
  match v with
  | EmptyString => Return decimal
  | String c rest =>
      match index_of c BITCOIN_ALPHABET with
      | Some i => b58decode_int_loop rest (decimal * 58 + i)
      | None =>
          Raise (mkExn ValueError
                       ("Invalid character " ++ String c EmptyString))
      end
  end.

Definition b58decode_int (v : string) : result N :=
  b58decode_int_loop v 0.

Definition byte_of_digit (d : N) : byte :=
  match Byte.of_N d with
  | Some b => b
  | None => x00
  end.

(** Minimal big-endian bytes of [n] (none for zero), and back. *)
Definition to_bytes (n : N) : list byte :=
  map byte_of_digit (digits 256 n).

Definition from_bytes (v : list byte) : N :=
  undigits 256 (map Byte.to_N v).

(** Modelled from the spec: standard Base58 decoding. *)
Definition b58decode (v : string) : result (list byte) :=
  match scrub_input v with
  | Raise e => Raise e
  | Return v =>
      let origlen := String.length v in
      let v' := lstrip "1" v in
      let newlen := String.length v' in
      match b58decode_int v' with
      | Raise e => Raise e
      | Return acc =>
          Return (repeat x00 (origlen - newlen) ++ to_bytes acc)%list
      end
  end.

(** Modelled from the spec: the base-58 numeral of [i], empty for zero. *)
Definition b58encode_int (i : N) : string :=
  fold_right (fun d s => slice1 BITCOIN_ALPHABET d ++ s)
             EmptyString (digits 58 i).

Fixpoint repeat_char (c : ascii) (n : nat) : string :=
  match n with
  | O => EmptyString
  | S n' => String c (repeat_char c n')
  end.

(** Modelled from the spec: standard Base58 encoding, the inverse that
    the round-trip property refers to. *)
Definition b58encode (v : list byte) : string :=
  let origlen := List.length v in
  let v' := lstrip_bytes x00 v in
  let newlen := List.length v' in
  let acc := from_bytes v' in
  repeat_char "1" (origlen - newlen) ++ b58encode_int acc.

End base58.

(* ===================================================================== *)
(** ** [encode.py]                                                       *)
(* ===================================================================== *)

Local Open Scope py_scope.

(** [len(private_key_bytes) not in (32, 64)] *)
Definition not_in_32_64 (n : N) : bool := negb ((n =? 32) || (n =? 64)).

(** Converts a Solana Base58-encoded private key into a comma-separated
    numerical format. *)
Definition solana_private_key_to_decimal_list (private_key : string)
  : M string :=
  private_key_bytes <-
    try_except (lift (base58.b58decode private_key)) ValueError
      (fun _ =>
         raise (mkExn ValueError "Invalid Base58 private key format.")) ;;
  if not_in_32_64 (len private_key_bytes) then
    raise (mkExn ValueError
             ("Decoded private key length is invalid: "
                ++ str (len private_key_bytes)
                ++ " bytes. Expected 32 or 64."))
  else
    let decimal_values := map Byte.to_N private_key_bytes in
    let formatted_key := join "," (map str decimal_values) in
    ret formatted_key.

(** The example at the end of the module, run when it is loaded. *)
Definition private_key_base58 : string :=
  "aQ7qD4UArVn6yuHHmhuWLnW96uu3jMhWyKYKd8qqrnxD4yCWxPSDG8qnQ51WuQv5KCHDh3WkuhTeiZdMFyrjjUm".

Definition module_body : M unit :=
  private_key_decimal_list <-
    solana_private_key_to_decimal_list private_key_base58 ;;
  print private_key_decimal_list.

(* ===================================================================== *)
(** ** Reading the output back, as the specification describes it        *)
(* ===================================================================== *)

Module Reader.

(** [s.split(c)]: the fields of [s] between occurrences of [c]. *)
Fixpoint split_on (c : ascii) (s : string) : list string :=
  match s with
  | EmptyString => [EmptyString]
  | String a rest =>
      if Ascii.eqb a c then EmptyString :: split_on c rest
      else
        match split_on c rest with
        | [] => [String a EmptyString]
        | field :: fields => String a field :: fields
        end
  end.

Definition digit_value (c : ascii) : option N :=
  let n := N_of_ascii c in
  if (48 <=? n) && (n <=? 57) then Some (n - 48) else None.

Fixpoint parse_uint_loop (s : string) (acc : N) : option N :=
  match s with
  | EmptyString => Some acc
  | String c rest =>
      match digit_value c with
      | Some d => parse_uint_loop rest (acc * 10 + d)
      | None => None
      end
  end.

(** A non-empty run of decimal digits read as an unsigned integer. *)
Definition parse_uint (s : string) : option N :=
  match s with
  | EmptyString => None
  | _ => parse_uint_loop s 0
  end.

(** The digit values of a text over the Base58 alphabet. *)
Fixpoint base58_digits (s : string) : option (list N) :=
  match s with
  | EmptyString => Some []
  | String c rest =>
      match base58.index_of c base58.BITCOIN_ALPHABET,
            base58_digits rest with
      | Some d, Some ds => Some (d :: ds)
      | _, _ => None
      end
  end.

(** The text read as a big-endian base-58 numeral. *)
Definition base58_numeral (s : string) : option N :=
  option_map (undigits 58) (base58_digits s).

Definition in_alphabet (c : ascii) : bool :=
  match base58.index_of c base58.BITCOIN_ALPHABET with
  | Some _ => true
  | None => false
  end.

(** Number of ['1'] characters at the front of the text. *)
Fixpoint leading_ones (s : string) : nat :=
  match s with
  | String a rest => if Ascii.eqb a "1" then S (leading_ones rest) else O
  | EmptyString => O
  end.

(** A digit sequence in base [base] without a leading zero. *)
Definition canonical (base : N) (ds : list N) : Prop :=
  Forall (fun d => d < base) ds /\
  match ds with
  | [] => True
  | d :: _ => d <> 0
  end.

End Reader.

Import Reader.

Definition invalid_format : exn :=
  mkExn ValueError "Invalid Base58 private key format.".

Definition invalid_length (n : N) : exn :=
  mkExn ValueError
        ("Decoded private key length is invalid: "
           ++ str n ++ " bytes. Expected 32 or 64.").

(** The text of a digit sequence over the alphabet, as the encoder
    builds it. *)
Definition b58_text (ds : list N) : string :=
  fold_right (fun d s => base58.slice1 base58.BITCOIN_ALPHABET d ++ s)
             EmptyString ds.

(** Position [i] of the alphabet holds a character whose index is [i]. *)
Definition alphabet_ok (i : nat) : bool :=
  match String.get i base58.BITCOIN_ALPHABET with
  | Some c =>
      match base58.index_of c base58.BITCOIN_ALPHABET with
      | Some j => j =? N.of_nat i
      | None => false
      end
  | None => false
  end.

Definition all_ascii (s : string) : bool :=
  forallb base58.is_ascii (list_ascii_of_string s).

(** The bytes 0, 1, ..., 31. *)
Definition bytes_0_31 : list byte :=
  [x00; x01; x02; x03; x04; x05; x06; x07;
   x08; x09; x0a; x0b; x0c; x0d; x0e; x0f;
   x10; x11; x12; x13; x14; x15; x16; x17;
   x18; x19; x1a; x1b; x1c; x1d; x1e; x1f].

(** Its Base58 text. *)
Definition text_0_31 : string :=
  "1thX6LZfHDZZKUs92febYZhYRcXddmzfzF2NvTkPNE".

Definition decimal_0_31 : string :=
  "0,1,2,3,4,5,6,7,8,9,10,11,12,13,14,15,16,17,18,19,20,21,22,23,24,25,26,27,28,29,30,31".

(** An interpreter state with nothing printed yet. *)
Definition fresh : world := mkWorld [].

(** The example at the end of the module, for any key text in place of
    the literal: the source asks its user to replace it. *)
Definition example_usage (key : string) : M unit :=
  private_key_decimal_list <- solana_private_key_to_decimal_list key ;;
  print private_key_decimal_list.

Definition is_digit (c : ascii) : bool :=
  match digit_value c with
  | Some _ => true
  | None => false
  end.

Definition is_digit_or_comma (c : ascii) : bool :=
  is_digit c || Ascii.eqb c ",".

(** The decimal numeral of a byte: one to three digits, the first of them
    [0] only when it is the only one. *)
Definition byte_numeral (f : string) : bool :=
  (String.length f <=? 3)%nat
  && forallb is_digit (list_ascii_of_string f)
  && match f with
     | EmptyString => false
     | String c EmptyString => true
     | String c _ => negb (Ascii.eqb c "0")
     end.

(* ===================================================================== *)
(** ** Positional numerals                                               *)
(* ===================================================================== *)

Section Numerals.

Variable base : N.
Hypothesis base_ge_2 : 2 <= base.

Lemma horner_app (xs ys : list N) (start : N) :
  horner base (xs ++ ys) start = horner base ys (horner base xs start).
Proof. unfold horner. apply fold_left_app. Qed.

Lemma horner_start (ds : list N) (start : N) :
  horner base ds start
  = start * base ^ N.of_nat (List.length ds) + horner base ds 0.
Proof.
  revert start. induction ds as [|d ds IH]; intros start.
  - cbn. lia.
  - change (horner base (d :: ds) start)
      with (horner base ds (start * base + d)).
    change (horner base (d :: ds) 0) with (horner base ds (0 * base + d)).
    rewrite (IH (start * base + d)), (IH (0 * base + d)).
    replace (N.of_nat (List.length (d :: ds)))
      with (N.succ (N.of_nat (List.length ds))) by (cbn [List.length]; lia).
    rewrite N.pow_succ_r'. lia.
Qed.

Lemma undigits_snoc (ds : list N) (d : N) :
  undigits base (ds ++ [d]) = undigits base ds * base + d.
Proof. unfold undigits. rewrite horner_app. reflexivity. Qed.

Lemma canonical_snoc_inv (ds : list N) (d : N) :
  canonical base (ds ++ [d]) -> canonical base ds /\ d < base.
Proof.
  intros [Hall Hhd]. apply Forall_app in Hall as [Hds Hd].
  inversion Hd; subst. split; [split|]; auto.
  destruct ds; cbn in *; auto.
Qed.

(** The loop computes a canonical numeral of its argument in front of
    the accumulator, given fuel for every bit of the argument. *)
Lemma digits_loop_spec (fuel : nat) :
  forall n acc,
    n < 2 ^ N.of_nat fuel ->
    exists ds,
      digits_loop fuel base n acc = (ds ++ acc)%list
      /\ undigits base ds = n
      /\ canonical base ds.
Proof.
  induction fuel as [|fuel IH]; intros n acc Hn.
  - exists []. cbn in *. repeat split; try constructor. unfold undigits; cbn. lia.
  - cbn [digits_loop]. destruct (N.eqb_spec n 0) as [->|Hnz].
    + exists []. repeat split; constructor.
    + assert (Hdiv : n / base < 2 ^ N.of_nat fuel).
      { apply N.Div0.div_lt_upper_bound.
        replace (N.of_nat (S fuel)) with (N.succ (N.of_nat fuel)) in Hn by lia.
        rewrite N.pow_succ_r' in Hn. nia. }
      destruct (IH (n / base) (n mod base :: acc) Hdiv)
        as (ds & Hloop & Hval & Hall & Hhd).
      exists (ds ++ [n mod base])%list. split; [|split; [|split]].
      * rewrite Hloop, <- app_assoc. reflexivity.
      * rewrite undigits_snoc, Hval.
        pose proof (N.div_mod n base). lia.
      * apply Forall_app. split; auto. constructor; auto.
        apply N.mod_lt. lia.
      * destruct ds as [|d ds]; cbn; auto.
        unfold undigits in Hval; cbn in Hval.
        pose proof (N.div_mod n base ltac:(lia)) as Hdm.
        rewrite <- Hval in Hdm. lia.
Qed.

Lemma digits_spec (n : N) :
  undigits base (digits base n) = n /\ canonical base (digits base n).
Proof.
  unfold digits.
  destruct (digits_loop_spec (N.to_nat (N.size n)) n [])
    as (ds & Hloop & Hval & Hcan).
  - rewrite N2Nat.id. apply N.size_gt.
  - rewrite Hloop, app_nil_r. auto.
Qed.

Lemma canonical_zero (ds : list N) :
  canonical base ds -> undigits base ds = 0 -> ds = [].
Proof.
  intros [_ Hhd] Hval. destruct ds as [|d ds]; auto. exfalso.
  unfold undigits in Hval.
  change (horner base (d :: ds) 0)
    with (horner base ds (0 * base + d)) in Hval.
  rewrite horner_start in Hval.
  assert (0 < base ^ N.of_nat (List.length ds)) by (apply N.neq_0_lt_0, N.pow_nonzero; lia).
  nia.
Qed.

(** A number has one canonical numeral. *)
Lemma canonical_unique (xs : list N) :
  forall ys,
    canonical base xs -> canonical base ys ->
    undigits base xs = undigits base ys -> xs = ys.
Proof.
  induction xs as [|x xs IH] using rev_ind; intros ys Hx Hy Heq.
  - symmetry. apply canonical_zero; auto.
  - destruct ys as [|y ys _] using rev_ind.
    + apply canonical_zero; auto.
    + rewrite !undigits_snoc in Heq.
      apply canonical_snoc_inv in Hx as Hx'. destruct Hx' as [Hxs Hxb].
      apply canonical_snoc_inv in Hy as Hy'. destruct Hy' as [Hys Hyb].
      assert (undigits base xs = undigits base ys /\ x = y) as [Hv ->].
      { apply (N.div_mod_unique base); auto. lia. }
      f_equal. apply IH; auto.
Qed.

Lemma digits_undigits (ds : list N) :
  canonical base ds -> digits base (undigits base ds) = ds.
Proof.
  intros Hcan. destruct (digits_spec (undigits base ds)) as [Hval Hcan'].
  apply canonical_unique; auto.
Qed.

Lemma digits_zero : digits base 0 = [].
Proof. reflexivity. Qed.

End Numerals.

(* ===================================================================== *)
(** ** The Base58 alphabet                                               *)
(* ===================================================================== *)

Section Alphabet.

Import base58.

Lemma index_of_get (c : ascii) (s : string) :
  forall i, index_of c s = Some i -> String.get (N.to_nat i) s = Some c.
Proof.
  induction s as [|a s IH]; intros i H; cbn in H; [discriminate|].
  destruct (Ascii.eqb_spec a c) as [->|Hne].
  - inversion H; subst. reflexivity.
  - destruct (index_of c s) as [j|]; [|discriminate].
    inversion H; subst. rewrite N2Nat.inj_succ. cbn. apply IH. reflexivity.
Qed.

Lemma index_of_In (c : ascii) (s : string) :
  forall i, index_of c s = Some i -> In c (list_ascii_of_string s).
Proof.
  induction s as [|a s IH]; intros i H; cbn in H; [discriminate|].
  destruct (Ascii.eqb_spec a c) as [->|Hne]; [left; reflexivity|].
  destruct (index_of c s) as [j|]; [|discriminate]. right. eapply IH; eauto.
Qed.

Lemma index_of_bound (c : ascii) (s : string) :
  forall i, index_of c s = Some i -> i < N.of_nat (String.length s).
Proof.
  induction s as [|a s IH]; intros i H; cbn in H; [discriminate|].
  destruct (Ascii.eqb a c).
  - inversion H; subst. cbn [String.length]. lia.
  - destruct (index_of c s) as [j|]; [|discriminate].
    inversion H; subst. specialize (IH j eq_refl). cbn [String.length]. lia.
Qed.

Lemma alphabet_index_lt_58 (c : ascii) (i : N) :
  index_of c BITCOIN_ALPHABET = Some i -> i < 58.
Proof. intros H. apply index_of_bound in H. exact H. Qed.

Lemma slice1_index_of (c : ascii) (i : N) :
  index_of c BITCOIN_ALPHABET = Some i ->
  slice1 BITCOIN_ALPHABET i = String c EmptyString.
Proof. intros H. unfold slice1. rewrite (index_of_get _ _ _ H). reflexivity. Qed.

Lemma alphabet_ok_all : forallb alphabet_ok (seq 0 58) = true.
Proof. vm_compute. reflexivity. Qed.

(** Every digit below 58 has its own character. *)
Lemma slice1_digit (d : N) :
  d < 58 ->
  exists c, slice1 BITCOIN_ALPHABET d = String c EmptyString
            /\ index_of c BITCOIN_ALPHABET = Some d.
Proof.
  intros Hd.
  pose proof (proj1 (forallb_forall _ _) alphabet_ok_all (N.to_nat d)) as H.
  assert (Hin : In (N.to_nat d) (seq 0 58)) by (apply in_seq; lia).
  specialize (H Hin). unfold alphabet_ok in H. unfold slice1.
  destruct (String.get (N.to_nat d) BITCOIN_ALPHABET) as [c|]; [|discriminate].
  exists c. split; [reflexivity|].
  destruct (index_of c BITCOIN_ALPHABET) as [j|]; [|discriminate].
  apply N.eqb_eq in H. rewrite N2Nat.id in H. congruence.
Qed.

Lemma alphabet_all_ascii : all_ascii BITCOIN_ALPHABET = true.
Proof. vm_compute. reflexivity. Qed.

Lemma in_alphabet_is_ascii (c : ascii) :
  in_alphabet c = true -> is_ascii c = true.
Proof.
  unfold in_alphabet. destruct (index_of c BITCOIN_ALPHABET) eqn:E; [|discriminate].
  intros _. apply index_of_In in E.
  exact (proj1 (forallb_forall _ _) alphabet_all_ascii c E).
Qed.

Lemma index_of_one : index_of "1" BITCOIN_ALPHABET = Some 0.
Proof. reflexivity. Qed.

Lemma index_of_zero_digit (c : ascii) :
  index_of c BITCOIN_ALPHABET = Some 0 -> c = "1"%char.
Proof.
  intros H. apply slice1_index_of in H. unfold slice1 in H. cbn in H.
  inversion H. reflexivity.
Qed.

Lemma base58_digits_bound (s : string) :
  forall ds, base58_digits s = Some ds -> Forall (fun d => d < 58) ds.
Proof.
  induction s as [|c s IH]; intros ds H; cbn [base58_digits] in H.
  - inversion H. constructor.
  - destruct (index_of c BITCOIN_ALPHABET) as [d|] eqn:E; [|discriminate].
    destruct (base58_digits s) as [ds'|]; [|discriminate].
    inversion H; subst. constructor; auto. eapply alphabet_index_lt_58; eauto.
Qed.

Lemma base58_digits_length (s : string) :
  forall ds, base58_digits s = Some ds -> List.length ds = String.length s.
Proof.
  induction s as [|c s IH]; intros ds H; cbn [base58_digits] in H.
  - inversion H. reflexivity.
  - destruct (index_of c BITCOIN_ALPHABET) as [d|]; [|discriminate].
    destruct (base58_digits s) as [ds'|]; [|discriminate].
    inversion H; subst. cbn. f_equal. auto.
Qed.

(** A text has digits exactly when all its characters are in the
    alphabet. *)
Lemma base58_digits_Some_iff (s : string) :
  (exists ds, base58_digits s = Some ds)
  <-> forallb in_alphabet (list_ascii_of_string s) = true.
Proof.
  induction s as [|c s IH]; cbn [base58_digits list_ascii_of_string forallb].
  - split; eauto.
  - unfold in_alphabet at 1.
    destruct (index_of c BITCOIN_ALPHABET) as [d|]; cbn.
    + rewrite <- IH. split.
      * intros [ds H]. destruct (base58_digits s); [eauto|discriminate].
      * intros [ds ->]. eauto.
    + split; [intros [ds H]|]; discriminate.
Qed.

Lemma b58_text_digits (ds : list N) :
  Forall (fun d => d < 58) ds -> base58_digits (b58_text ds) = Some ds.
Proof.
  induction 1 as [|d ds Hd _ IH]; [reflexivity|].
  cbn [b58_text fold_right]. fold (b58_text ds).
  destruct (slice1_digit d Hd) as (c & -> & Hc).
  cbn [append base58_digits]. rewrite Hc, IH. reflexivity.
Qed.

End Alphabet.

(* ===================================================================== *)
(** ** Bytes and integers                                                *)
(* ===================================================================== *)

Section Bytes.

Import base58.

Lemma byte_of_digit_to_N (b : byte) : byte_of_digit (Byte.to_N b) = b.
Proof. unfold byte_of_digit. rewrite Byte.of_to_N. reflexivity. Qed.

Lemma to_N_byte_of_digit (d : N) :
  d < 256 -> Byte.to_N (byte_of_digit d) = d.
Proof.
  intros Hd. unfold byte_of_digit.
  destruct (Byte.of_N d) as [b|] eqn:E.
  - apply Byte.to_of_N. exact E.
  - apply Byte.of_N_None_iff in E. lia.
Qed.

Lemma to_N_zero_inv (b : byte) : Byte.to_N b = 0 -> b = x00.
Proof.
  intros H. rewrite <- (byte_of_digit_to_N b), H. reflexivity.
Qed.

Lemma map_to_N_byte_of_digit (ds : list N) :
  Forall (fun d => d < 256) ds -> map Byte.to_N (map byte_of_digit ds) = ds.
Proof.
  induction 1 as [|d ds Hd _ IH]; cbn; [reflexivity|].
  rewrite to_N_byte_of_digit, IH; auto.
Qed.

Lemma map_byte_of_digit_to_N (v : list byte) :
  map byte_of_digit (map Byte.to_N v) = v.
Proof.
  induction v as [|b v IH]; cbn; [reflexivity|].
  rewrite byte_of_digit_to_N, IH. reflexivity.
Qed.

Lemma bytes_digits_bound (v : list byte) :
  Forall (fun d => d < 256) (map Byte.to_N v).
Proof.
  induction v as [|b v IH]; cbn; constructor; auto.
  pose proof (Byte.to_N_bounded b). lia.
Qed.

Lemma from_bytes_to_bytes (n : N) : from_bytes (to_bytes n) = n.
Proof.
  unfold from_bytes, to_bytes.
  destruct (digits_spec 256 ltac:(lia) n) as [Hval [Hall _]].
  rewrite map_to_N_byte_of_digit; auto.
Qed.

Lemma to_bytes_from_bytes (v : list byte) :
  canonical 256 (map Byte.to_N v) -> to_bytes (from_bytes v) = v.
Proof.
  intros Hcan. unfold from_bytes, to_bytes.
  rewrite digits_undigits by (auto; lia). apply map_byte_of_digit_to_N.
Qed.

(** [to_bytes] never starts with a zero byte. *)
Lemma to_bytes_no_leading_zero (n : N) :
  match to_bytes n with
  | [] => True
  | b :: _ => b <> x00
  end.
Proof.
  unfold to_bytes. destruct (digits_spec 256 ltac:(lia) n) as [_ [Hall Hhd]].
  destruct (digits 256 n) as [|d ds]; cbn; auto.
  inversion Hall; subst. intros Hb.
  apply (f_equal Byte.to_N) in Hb. rewrite to_N_byte_of_digit in Hb by auto.
  cbn in Hb. contradiction.
Qed.

Lemma undigits_lt (base : N) (ds : list N) :
  2 <= base -> Forall (fun d => d < base) ds ->
  undigits base ds < base ^ N.of_nat (List.length ds).
Proof.
  intros Hb. induction ds as [|d ds IH] using rev_ind; intros Hall.
  - cbn. lia.
  - apply Forall_app in Hall as [Hds Hd]. inversion Hd; subst.
    specialize (IH Hds).
    rewrite undigits_snoc, length_app. cbn [List.length].
    replace (N.of_nat (List.length ds + 1)) with (N.succ (N.of_nat (List.length ds))) by lia.
    rewrite N.pow_succ_r'. nia.
Qed.

Lemma canonical_ge (base : N) (d : N) (ds : list N) :
  2 <= base -> canonical base (d :: ds) ->
  base ^ N.of_nat (List.length ds) <= undigits base (d :: ds).
Proof.
  intros Hb [_ Hd]. unfold undigits.
  change (horner base (d :: ds) 0) with (horner base ds (0 * base + d)).
  rewrite horner_start by lia.
  assert (0 < base ^ N.of_nat (List.length ds))
    by (apply N.neq_0_lt_0, N.pow_nonzero; lia).
  nia.
Qed.

(** No byte sequence with the same value is shorter than [to_bytes]. *)
Lemma to_bytes_shortest (n : N) (v : list byte) :
  from_bytes v = n -> (List.length (to_bytes n) <= List.length v)%nat.
Proof.
  intros Hv. unfold to_bytes. rewrite length_map.
  destruct (digits_spec 256 ltac:(lia) n) as [Hval Hcan].
  destruct (digits 256 n) as [|d ds] eqn:E; cbn [List.length]; [lia|].
  pose proof (canonical_ge 256 d ds ltac:(lia) Hcan) as Hge.
  pose proof (undigits_lt 256 (map Byte.to_N v) ltac:(lia)
                          (bytes_digits_bound v)) as Hlt.
  rewrite length_map in Hlt. fold (from_bytes v) in Hlt.
  rewrite Hv, <- Hval in Hlt.
  assert (Hpow : 256 ^ N.of_nat (List.length ds)
                 < 256 ^ N.of_nat (List.length v)) by lia.
  apply N.pow_lt_mono_r_iff in Hpow; lia.
Qed.

Lemma lstrip_bytes_length (v : list byte) :
  (List.length (lstrip_bytes x00 v) <= List.length v)%nat.
Proof.
  induction v as [|a v IH]; cbn; [lia|].
  destruct (Byte.eqb a x00); cbn; lia.
Qed.

Lemma lstrip_bytes_split (v : list byte) :
  v = (repeat x00 (List.length v - List.length (lstrip_bytes x00 v))
         ++ lstrip_bytes x00 v)%list.
Proof.
  induction v as [|a v IH]; [reflexivity|].
  cbn [lstrip_bytes]. destruct (Byte.eqb a x00) eqn:E.
  - apply Byte.byte_dec_bl in E. subst a.
    pose proof (lstrip_bytes_length v).
    replace (List.length (x00 :: v) - List.length (lstrip_bytes x00 v))%nat
      with (S (List.length v - List.length (lstrip_bytes x00 v)))
      by (cbn [List.length]; lia).
    cbn [repeat app]. f_equal. exact IH.
  - rewrite Nat.sub_diag. reflexivity.
Qed.

Lemma lstrip_bytes_canonical (v : list byte) :
  canonical 256 (map Byte.to_N (lstrip_bytes x00 v)).
Proof.
  split; [apply bytes_digits_bound|].
  induction v as [|a v IH]; cbn; auto.
  destruct (Byte.eqb a x00) eqn:E; auto.
  cbn. intros H. apply to_N_zero_inv in H. subst a. discriminate.
Qed.

End Bytes.

(* ===================================================================== *)
(** ** The decoder and the encoder                                       *)
(* ===================================================================== *)

Section Codec.

Import base58.

Lemma scrub_input_alphabet (s : string) :
  forallb in_alphabet (list_ascii_of_string s) = true ->
  scrub_input s = Return s.
Proof.
  intros H. unfold scrub_input.
  replace (forallb is_ascii (list_ascii_of_string s)) with true; auto.
  symmetry. apply forallb_forall. intros c Hc.
  apply in_alphabet_is_ascii.
  exact (proj1 (forallb_forall _ _) H c Hc).
Qed.

Lemma lstrip_length (s : string) :
  (String.length s - String.length (lstrip "1" s))%nat = leading_ones s.
Proof.
  assert (H : (String.length (lstrip "1" s) + leading_ones s)%nat
              = String.length s).
  { induction s as [|a s IH]; [reflexivity|].
    cbn [lstrip leading_ones]. destruct (Ascii.eqb a "1").
    - cbn [String.length]. lia.
    - lia. }
  lia.
Qed.

(** Stripping the leading ['1'] characters keeps the numeral's value. *)
Lemma lstrip_digits (s : string) :
  forall ds,
    base58_digits s = Some ds ->
    exists ds', base58_digits (lstrip "1" s) = Some ds'
                /\ undigits 58 ds' = undigits 58 ds.
Proof.
  induction s as [|a s IH]; intros ds H.
  - exists ds. auto.
  - cbn [lstrip]. destruct (Ascii.eqb_spec a "1") as [->|Hne].
    + cbn [base58_digits] in H. rewrite index_of_one in H.
      destruct (base58_digits s) as [ds0|]; [|discriminate].
      inversion H; subst. destruct (IH ds0 eq_refl) as (ds' & Hd & Hv).
      exists ds'. split; auto.
    + exists ds. auto.
Qed.

Lemma lstrip_digits_None (s : string) :
  base58_digits s = None -> base58_digits (lstrip "1" s) = None.
Proof.
  induction s as [|a s IH]; intros H; auto.
  cbn [lstrip]. destruct (Ascii.eqb_spec a "1") as [->|Hne]; auto.
  cbn [base58_digits] in H. rewrite index_of_one in H.
  destruct (base58_digits s); [discriminate|]. auto.
Qed.

Lemma b58decode_int_loop_digits (s : string) :
  forall ds decimal,
    base58_digits s = Some ds ->
    b58decode_int_loop s decimal = Return (horner 58 ds decimal).
Proof.
  induction s as [|c s IH]; intros ds decimal H; cbn [base58_digits] in H.
  - inversion H. reflexivity.
  - cbn [b58decode_int_loop].
    destruct (index_of c BITCOIN_ALPHABET) as [d|]; [|discriminate].
    destruct (base58_digits s) as [ds'|]; [|discriminate].
    inversion H; subst. rewrite (IH ds'); reflexivity.
Qed.

Lemma b58decode_int_loop_invalid (s : string) :
  forall decimal,
    base58_digits s = None ->
    exists e, b58decode_int_loop s decimal = Raise e /\ cls e = ValueError.
Proof.
  induction s as [|c s IH]; intros decimal H; cbn [base58_digits] in H.
  - discriminate.
  - cbn [b58decode_int_loop].
    destruct (index_of c BITCOIN_ALPHABET) as [d|]; [|eauto].
    destruct (base58_digits s) as [ds'|]; [discriminate|]. auto.
Qed.

(** The decoder on a text over the alphabet: one zero byte for each
    leading ['1'], then the minimal bytes of the numeral's value. *)
Lemma b58decode_digits (s : string) (ds : list N) :
  base58_digits s = Some ds ->
  b58decode s
  = Return (repeat x00 (leading_ones s) ++ to_bytes (undigits 58 ds))%list.
Proof.
  intros H. unfold b58decode.
  rewrite scrub_input_alphabet
    by (apply base58_digits_Some_iff; eauto).
  cbv zeta. rewrite lstrip_length.
  destruct (lstrip_digits s ds H) as (ds' & Hd & Hv).
  unfold b58decode_int. rewrite (b58decode_int_loop_digits _ ds') by exact Hd.
  fold (undigits 58 ds'). rewrite Hv. reflexivity.
Qed.

(** The decoder on any other text raises an instance of [ValueError]. *)
Lemma b58decode_invalid (s : string) :
  base58_digits s = None ->
  exists e, b58decode s = Raise e /\ isinstance e ValueError = true.
Proof.
  intros H. unfold b58decode, scrub_input.
  destruct (forallb is_ascii (list_ascii_of_string s)).
  - cbv zeta.
    destruct (b58decode_int_loop_invalid (lstrip "1" s) 0
                (lstrip_digits_None s H)) as (e & He & Hc).
    unfold b58decode_int. rewrite He. exists e. split; auto.
    unfold isinstance. rewrite Hc. reflexivity.
  - eexists. split; reflexivity.
Qed.

Lemma b58decode_raises_ValueError (s : string) (e : exn) :
  b58decode s = Raise e -> isinstance e ValueError = true.
Proof.
  intros H. destruct (base58_digits s) as [ds|] eqn:E.
  - rewrite (b58decode_digits s ds E) in H. discriminate.
  - destruct (b58decode_invalid s E) as (e' & He & Hi). congruence.
Qed.

Lemma base58_digits_app (s t : string) :
  forall ds dt,
    base58_digits s = Some ds -> base58_digits t = Some dt ->
    base58_digits (s ++ t) = Some (ds ++ dt)%list.
Proof.
  induction s as [|c s IH]; intros ds dt Hs Ht; cbn [base58_digits] in Hs.
  - inversion Hs. exact Ht.
  - cbn [append base58_digits].
    destruct (index_of c BITCOIN_ALPHABET) as [d|]; [|discriminate].
    destruct (base58_digits s) as [ds'|]; [|discriminate].
    inversion Hs; subst. rewrite (IH ds' dt); auto.
Qed.

Lemma repeat_char_digits (k : nat) :
  base58_digits (repeat_char "1" k) = Some (repeat 0 k).
Proof.
  induction k as [|k IH]; [reflexivity|].
  cbn [repeat_char base58_digits repeat]. rewrite index_of_one, IH. reflexivity.
Qed.

Lemma leading_ones_repeat (k : nat) (t : string) :
  leading_ones (repeat_char "1" k ++ t) = (k + leading_ones t)%nat.
Proof. induction k as [|k IH]; cbn; auto. Qed.

Lemma leading_ones_text (ds : list N) :
  canonical 58 ds -> leading_ones (b58_text ds) = O.
Proof.
  intros [Hall Hhd]. destruct ds as [|d ds]; [reflexivity|].
  inversion Hall; subst. cbn [b58_text fold_right].
  destruct (slice1_digit d) as (c & -> & Hc); auto.
  cbn [append leading_ones]. destruct (Ascii.eqb_spec c "1") as [->|]; auto.
  rewrite index_of_one in Hc. congruence.
Qed.

Lemma undigits_leading_zeros (base : N) (k : nat) (ds : list N) :
  undigits base (repeat 0 k ++ ds) = undigits base ds.
Proof.
  unfold undigits. rewrite horner_app. f_equal.
  induction k as [|k IH]; [reflexivity|]. exact IH.
Qed.

(** Decoding undoes encoding, for every byte sequence. *)
Lemma b58decode_b58encode (v : list byte) :
  b58decode (b58encode v) = Return v.
Proof.
  unfold b58encode. cbv zeta.
  set (k := (List.length v - List.length (lstrip_bytes x00 v))%nat).
  set (n := from_bytes (lstrip_bytes x00 v)).
  fold (b58_text (digits 58 n)). unfold b58encode_int.
  fold (b58_text (digits 58 n)).
  destruct (digits_spec 58 ltac:(lia) n) as [Hval Hcan].
  rewrite (b58decode_digits _ (repeat 0 k ++ digits 58 n)).
  - rewrite leading_ones_repeat, leading_ones_text by exact Hcan.
    rewrite undigits_leading_zeros, Hval, Nat.add_0_r.
    unfold n. rewrite to_bytes_from_bytes by apply lstrip_bytes_canonical.
    unfold k. f_equal. symmetry. apply lstrip_bytes_split.
  - apply base58_digits_app; [apply repeat_char_digits|].
    apply b58_text_digits. apply Hcan.
Qed.

End Codec.

(* ===================================================================== *)
(** ** Decimal text: [str], [join] and reading them back                 *)
(* ===================================================================== *)

Section Decimal.

Lemma digit_value_digit_char (d : N) :
  d < 10 -> digit_value (digit_char d) = Some d.
Proof.
  intros Hd. unfold digit_value, digit_char.
  rewrite N_ascii_embedding by lia.
  replace ((48 <=? 48 + d) && (48 + d <=? 57)) with true.
  - f_equal. lia.
  - symmetry. apply andb_true_iff. split; apply N.leb_le; lia.
Qed.

Lemma digit_char_not_comma (d : N) : d < 10 -> digit_char d <> ","%char.
Proof.
  intros Hd Heq. apply digit_value_digit_char in Hd.
  rewrite Heq in Hd. discriminate.
Qed.

Lemma parse_uint_loop_digits (ds : list N) :
  forall acc,
    Forall (fun d => d < 10) ds ->
    parse_uint_loop (string_of_list_ascii (map digit_char ds)) acc
    = Some (horner 10 ds acc).
Proof.
  induction ds as [|d ds IH]; intros acc Hall; [reflexivity|].
  inversion Hall; subst. cbn [map string_of_list_ascii parse_uint_loop].
  rewrite digit_value_digit_char by auto. rewrite IH by auto. reflexivity.
Qed.

(** Reading back what [str] writes gives the number. *)
Lemma parse_uint_str (n : N) : parse_uint (str n) = Some n.
Proof.
  unfold str. destruct (N.eqb_spec n 0) as [->|Hnz]; [reflexivity|].
  destruct (digits_spec 10 ltac:(lia) n) as [Hval [Hall _]].
  destruct (digits 10 n) as [|d ds] eqn:E.
  - unfold undigits in Hval. cbn in Hval. congruence.
  - unfold parse_uint. cbn [map string_of_list_ascii].
    change (String (digit_char d) (string_of_list_ascii (map digit_char ds)))
      with (string_of_list_ascii (map digit_char (d :: ds))).
    rewrite parse_uint_loop_digits by exact Hall.
    fold (undigits 10 (d :: ds)). congruence.
Qed.

Lemma str_no_comma (n : N) : ~ In ","%char (list_ascii_of_string (str n)).
Proof.
  unfold str. destruct (N.eqb_spec n 0) as [->|Hnz].
  - cbn. intros [H|[]]. discriminate.
  - destruct (digits_spec 10 ltac:(lia) n) as [_ [Hall _]].
    rewrite list_ascii_of_string_of_list_ascii. intros Hin.
    apply in_map_iff in Hin as (d & Hd & Hin).
    rewrite Forall_forall in Hall. apply Hall in Hin.
    apply digit_char_not_comma in Hin. congruence.
Qed.

Lemma split_on_absent (c : ascii) (f : string) :
  ~ In c (list_ascii_of_string f) -> split_on c f = [f].
Proof.
  induction f as [|a f IH]; intros Hnot; [reflexivity|].
  cbn [split_on]. cbn [list_ascii_of_string In] in Hnot.
  destruct (Ascii.eqb_spec a c) as [->|Hne]; [tauto|].
  rewrite IH by tauto. reflexivity.
Qed.

Lemma split_on_field (c : ascii) (f rest : string) :
  ~ In c (list_ascii_of_string f) ->
  split_on c (f ++ String c rest) = f :: split_on c rest.
Proof.
  induction f as [|a f IH]; intros Hnot.
  - cbn [append split_on]. rewrite Ascii.eqb_refl. reflexivity.
  - cbn [append split_on]. cbn [list_ascii_of_string In] in Hnot.
    destruct (Ascii.eqb_spec a c) as [->|Hne]; [tauto|].
    rewrite IH by tauto. reflexivity.
Qed.

(** Splitting a joined text gives the fields back, when there is at
    least one field and none contains the separator. *)
Lemma split_on_join (c : ascii) (fields : list string) :
  fields <> [] ->
  Forall (fun f => ~ In c (list_ascii_of_string f)) fields ->
  split_on c (join (String c EmptyString) fields) = fields.
Proof.
  intros Hne Hall. induction Hall as [|f fields Hf Hall IH]; [congruence|].
  destruct fields as [|g fields].
  - cbn [join]. apply split_on_absent. exact Hf.
  - change (join (String c EmptyString) (f :: g :: fields))
      with (f ++ String c (join (String c EmptyString) (g :: fields))).
    rewrite split_on_field by exact Hf. f_equal. apply IH. discriminate.
Qed.

End Decimal.

(* ===================================================================== *)
(** ** The converter                                                     *)
(* ===================================================================== *)

Section Converter.

Lemma convert_decoded (s : string) (b : list byte) (w : world) :
  base58.b58decode s = Return b ->
  solana_private_key_to_decimal_list s w
  = (if not_in_32_64 (len b) then Raise (invalid_length (len b))
     else Return (join "," (map str (map Byte.to_N b))), w).
Proof.
  intros H. unfold solana_private_key_to_decimal_list, bind, try_except, lift.
  rewrite H. destruct (not_in_32_64 (len b)); reflexivity.
Qed.

Lemma convert_undecoded (s : string) (e : exn) (w : world) :
  base58.b58decode s = Raise e ->
  solana_private_key_to_decimal_list s w = (Raise invalid_format, w).
Proof.
  intros H. unfold solana_private_key_to_decimal_list, bind, try_except, lift.
  rewrite H, (b58decode_raises_ValueError s e H). reflexivity.
Qed.

Lemma not_in_32_64_false (b : list byte) :
  List.length b = 32%nat \/ List.length b = 64%nat ->
  not_in_32_64 (len b) = false.
Proof. unfold len. intros [-> | ->]; reflexivity. Qed.

Lemma not_in_32_64_true (b : list byte) :
  List.length b <> 32%nat -> List.length b <> 64%nat ->
  not_in_32_64 (len b) = true.
Proof.
  unfold len, not_in_32_64. intros H1 H2.
  destruct (N.eqb_spec (N.of_nat (List.length b)) 32); [lia|].
  destruct (N.eqb_spec (N.of_nat (List.length b)) 64); [lia|].
  reflexivity.
Qed.

Lemma invalid_format_not_length (n : N) : invalid_format <> invalid_length n.
Proof. unfold invalid_format, invalid_length. intros H. inversion H. Qed.

End Converter.

(* ===================================================================== *)
(** ** Properties of the converter                                       *)
(* ===================================================================== *)

(** C1. When the input decodes to a byte sequence [b] of 32 or 64 bytes,
    the call returns a text whose comma-separated fields are as many as the
    bytes of [b], each field reads as an unsigned integer between 0 and
    255, and the integers read are, in order, the bytes of [b]. *)
Theorem convert_output_reproduces_bytes
        (s : string) (b : list byte) (w : world) :
  base58.b58decode s = Return b ->
  List.length b = 32%nat \/ List.length b = 64%nat ->
  exists out,
    solana_private_key_to_decimal_list s w = (Return out, w)
    /\ List.length (split_on "," out) = List.length b
    /\ Forall (fun f => exists n, parse_uint f = Some n /\ 0 <= n <= 255)
              (split_on "," out)
    /\ map parse_uint (split_on "," out)
       = map (fun x => Some (Byte.to_N x)) b.
Proof.
  intros Hdec Hlen.
  exists (join "," (map str (map Byte.to_N b))).
  assert (Hsplit : split_on "," (join "," (map str (map Byte.to_N b)))
                   = map str (map Byte.to_N b)).
  { apply split_on_join.
    - destruct b; [cbn in Hlen; lia | discriminate].
    - apply Forall_forall. intros f Hf.
      apply in_map_iff in Hf as (n & <- & _). apply str_no_comma. }
  rewrite Hsplit. split; [|split; [|split]].
  - rewrite (convert_decoded s b w Hdec), not_in_32_64_false by exact Hlen.
    reflexivity.
  - rewrite !length_map. reflexivity.
  - apply Forall_forall. intros f Hf.
    apply in_map_iff in Hf as (n & <- & Hn).
    apply in_map_iff in Hn as (x & <- & _).
    exists (Byte.to_N x). split; [apply parse_uint_str|].
    pose proof (Byte.to_N_bounded x). lia.
  - rewrite !map_map. apply map_ext. intros x. apply parse_uint_str.
Qed.

Lemma convert_output_reproduces_bytes_witness :
  base58.b58decode text_0_31 = Return bytes_0_31
  /\ (List.length bytes_0_31 = 32%nat \/ List.length bytes_0_31 = 64%nat)
  /\ exists out,
      solana_private_key_to_decimal_list text_0_31 fresh = (Return out, fresh)
      /\ List.length (split_on "," out) = List.length bytes_0_31
      /\ Forall (fun f => exists n, parse_uint f = Some n /\ 0 <= n <= 255)
                (split_on "," out)
      /\ map parse_uint (split_on "," out)
         = map (fun x => Some (Byte.to_N x)) bytes_0_31.
Proof.
  split; [vm_compute; reflexivity|].
  split; [left; reflexivity|].
  apply (convert_output_reproduces_bytes text_0_31 bytes_0_31 fresh).
  - vm_compute; reflexivity.
  - left; reflexivity.
Defined.

(** C2. When the input decodes to a byte sequence whose length is neither
    32 nor 64, the call raises the length error, whose message carries the
    observed length, and returns no text. *)
Theorem convert_rejects_other_lengths
        (s : string) (b : list byte) (w : world) :
  base58.b58decode s = Return b ->
  List.length b <> 32%nat ->
  List.length b <> 64%nat ->
  solana_private_key_to_decimal_list s w
  = (Raise (mkExn ValueError
              ("Decoded private key length is invalid: "
                 ++ str (N.of_nat (List.length b))
                 ++ " bytes. Expected 32 or 64.")), w).
Proof.
  intros Hdec H32 H64.
  rewrite (convert_decoded s b w Hdec), not_in_32_64_true by assumption.
  reflexivity.
Qed.

Lemma convert_rejects_other_lengths_witness :
  base58.b58decode (base58.repeat_char "1" 31) = Return (repeat x00 31)
  /\ List.length (repeat x00 31) <> 32%nat
  /\ List.length (repeat x00 31) <> 64%nat
  /\ solana_private_key_to_decimal_list (base58.repeat_char "1" 31) fresh
     = (Raise (mkExn ValueError
                 "Decoded private key length is invalid: 31 bytes. Expected 32 or 64."),
        fresh).
Proof.
  split; [vm_compute; reflexivity|].
  split; [cbn; lia|].
  split; [cbn; lia|].
  apply (convert_rejects_other_lengths
           (base58.repeat_char "1" 31) (repeat x00 31) fresh).
  - vm_compute; reflexivity.
  - cbn; lia.
  - cbn; lia.
Defined.

(** C3, at an input.  The character [0] is outside the alphabet, and the
    error raised for it does not carry the message "invalid Base58 private
    key format": the message in the code starts with a capital letter and
    ends with a full stop. *)
Lemma convert_zero_char_message :
  In "0"%char (list_ascii_of_string "0")
  /\ in_alphabet "0" = false
  /\ solana_private_key_to_decimal_list "0" fresh
     = (Raise (mkExn ValueError "Invalid Base58 private key format."), fresh)
  /\ solana_private_key_to_decimal_list "0" fresh
     <> (Raise (mkExn ValueError "invalid Base58 private key format"), fresh).
Proof.
  split; [left; reflexivity|].
  split; [reflexivity|].
  split; [reflexivity|].
  intros H. vm_compute in H. discriminate H.
Qed.

(** C3, amended.  When some character of the input is outside the Base58
    alphabet, the call raises the format error, whose message is
    "Invalid Base58 private key format.", and returns no text. *)
Theorem convert_rejects_foreign_characters (s : string) (w : world) :
  (exists c, In c (list_ascii_of_string s) /\ in_alphabet c = false) ->
  solana_private_key_to_decimal_list s w
  = (Raise (mkExn ValueError "Invalid Base58 private key format."), w).
Proof.
  intros (c & Hin & Hc).
  destruct (base58_digits s) as [ds|] eqn:E.
  - assert (Hall : forallb in_alphabet (list_ascii_of_string s) = true)
      by (apply base58_digits_Some_iff; eauto).
    rewrite (proj1 (forallb_forall _ _) Hall c Hin) in Hc. discriminate.
  - destruct (b58decode_invalid s E) as (e & He & _).
    exact (convert_undecoded s e w He).
Qed.

Lemma convert_rejects_foreign_characters_witness :
  (exists c, In c (list_ascii_of_string "3vQB7B6MrGQZaxCuFg4Oh")
             /\ in_alphabet c = false)
  /\ solana_private_key_to_decimal_list "3vQB7B6MrGQZaxCuFg4Oh" fresh
     = (Raise (mkExn ValueError "Invalid Base58 private key format."), fresh).
Proof.
  assert (H : exists c, In c (list_ascii_of_string "3vQB7B6MrGQZaxCuFg4Oh")
                        /\ in_alphabet c = false).
  { exists "O"%char. split; [cbn; tauto | reflexivity]. }
  split; [exact H|].
  exact (convert_rejects_foreign_characters "3vQB7B6MrGQZaxCuFg4Oh" fresh H).
Defined.

(** C4. Decoding the Base58 text of a byte sequence of 32 or 64 bytes
    gives the byte sequence back. *)
Theorem b58decode_b58encode_key (b : list byte) :
  List.length b = 32%nat \/ List.length b = 64%nat ->
  base58.b58decode (base58.b58encode b) = Return b.
Proof. intros _. apply b58decode_b58encode. Qed.

Lemma b58decode_b58encode_key_witness :
  (List.length bytes_0_31 = 32%nat \/ List.length bytes_0_31 = 64%nat)
  /\ base58.b58decode (base58.b58encode bytes_0_31) = Return bytes_0_31.
Proof.
  split; [left; reflexivity|].
  apply (b58decode_b58encode_key bytes_0_31). left; reflexivity.
Defined.

(** C5. For a text over the alphabet whose value as a big-endian base-58
    numeral is [n], the decoder returns one zero byte for each leading
    ['1'] of the text followed by the minimal big-endian bytes of [n]:
    bytes of value [n], not starting with a zero byte, and no longer than
    any other byte sequence of value [n]. *)
Theorem b58decode_numeral_leading_ones (s : string) (n : N) :
  base58_numeral s = Some n ->
  exists bs,
    base58.b58decode s = Return (repeat x00 (leading_ones s) ++ bs)%list
    /\ base58.from_bytes bs = n
    /\ match bs with
       | [] => True
       | b :: _ => b <> x00
       end
    /\ forall v, base58.from_bytes v = n ->
                 (List.length bs <= List.length v)%nat.
Proof.
  unfold base58_numeral. intros H.
  destruct (base58_digits s) as [ds|] eqn:E; [|discriminate].
  inversion H; subst. exists (base58.to_bytes (undigits 58 ds)).
  split; [apply b58decode_digits; exact E|].
  split; [apply from_bytes_to_bytes|].
  split; [apply to_bytes_no_leading_zero|].
  intros v. apply to_bytes_shortest.
Qed.

Lemma b58decode_numeral_leading_ones_witness :
  base58_numeral "112g" = Some 97
  /\ exists bs,
      base58.b58decode "112g"
      = Return (repeat x00 (leading_ones "112g") ++ bs)%list
      /\ base58.from_bytes bs = 97
      /\ match bs with
         | [] => True
         | b :: _ => b <> x00
         end
      /\ forall v, base58.from_bytes v = 97 ->
                   (List.length bs <= List.length v)%nat.
Proof.
  split; [vm_compute; reflexivity|].
  apply (b58decode_numeral_leading_ones "112g" 97). vm_compute; reflexivity.
Defined.

(** C6. The empty text decodes to no bytes, and the call on it raises the
    length error for length 0. *)
Theorem convert_empty_input (w : world) :
  base58.b58decode "" = Return []
  /\ solana_private_key_to_decimal_list "" w
     = (Raise (mkExn ValueError
                 "Decoded private key length is invalid: 0 bytes. Expected 32 or 64."),
        w).
Proof. split; reflexivity. Qed.

(** C7. The outcome of a call depends on the input text alone, whatever
    the interpreter state, and the call leaves that state as it found it. *)
Theorem convert_pure (s : string) (w w' : world) :
  fst (solana_private_key_to_decimal_list s w)
  = fst (solana_private_key_to_decimal_list s w')
  /\ snd (solana_private_key_to_decimal_list s w) = w.
Proof.
  destruct (base58.b58decode s) as [b|e] eqn:E.
  - rewrite !(convert_decoded s b _ E). split; reflexivity.
  - rewrite !(convert_undecoded s e _ E). split; reflexivity.
Qed.

(** C8. Every exception the call raises has class [ValueError], for a
    text that does not decode as for a decoded length other than 32 and
    64; the two failures differ in their messages only. *)
Theorem convert_failures_are_ValueError (s : string) (w : world) (e : exn) :
  fst (solana_private_key_to_decimal_list s w) = Raise e ->
  cls e = ValueError
  /\ ((exists e0, base58.b58decode s = Raise e0)
      /\ message e = "Invalid Base58 private key format."
      \/
      (exists b, base58.b58decode s = Return b
                 /\ List.length b <> 32%nat /\ List.length b <> 64%nat
                 /\ message e
                    = "Decoded private key length is invalid: "
                        ++ str (N.of_nat (List.length b))
                        ++ " bytes. Expected 32 or 64."))
  /\ forall n,
      "Invalid Base58 private key format."
      <> "Decoded private key length is invalid: "
           ++ str n ++ " bytes. Expected 32 or 64.".
Proof.
  intros H. destruct (base58.b58decode s) as [b|e0] eqn:E.
  - rewrite (convert_decoded s b w E) in H.
    destruct (not_in_32_64 (len b)) eqn:Hlen; cbn in H; [|discriminate].
    inversion H; subst. split; [reflexivity|]. split.
    + right. exists b. unfold not_in_32_64, len in Hlen.
      apply negb_true_iff, orb_false_iff in Hlen as [H32 H64].
      apply N.eqb_neq in H32, H64.
      repeat split; auto; lia.
    + intros n Heq. inversion Heq.
  - rewrite (convert_undecoded s e0 w E) in H. cbn in H.
    inversion H; subst. split; [reflexivity|]. split.
    + left. eauto.
    + intros n Heq. inversion Heq.
Qed.

Lemma convert_failures_are_ValueError_witness :
  fst (solana_private_key_to_decimal_list "0" fresh) = Raise invalid_format
  /\ cls invalid_format = ValueError
  /\ ((exists e0, base58.b58decode "0" = Raise e0)
      /\ message invalid_format = "Invalid Base58 private key format."
      \/
      (exists b, base58.b58decode "0" = Return b
                 /\ List.length b <> 32%nat /\ List.length b <> 64%nat
                 /\ message invalid_format
                    = "Decoded private key length is invalid: "
                        ++ str (N.of_nat (List.length b))
                        ++ " bytes. Expected 32 or 64."))
  /\ forall n,
      "Invalid Base58 private key format."
      <> "Decoded private key length is invalid: "
           ++ str n ++ " bytes. Expected 32 or 64.".
Proof.
  split; [reflexivity|].
  apply (convert_failures_are_ValueError "0" fresh invalid_format).
  reflexivity.
Defined.

(** C9. The Base58 text of the bytes 0, 1, ..., 31 converts to
    "0,1,2,...,31": 32 fields that read 0 to 31 in order. *)
Theorem convert_bytes_0_31 (w : world) :
  solana_private_key_to_decimal_list (base58.b58encode bytes_0_31) w
  = (Return decimal_0_31, w)
  /\ map parse_uint (split_on "," decimal_0_31)
     = map (fun i => Some (N.of_nat i)) (seq 0 32).
Proof.
  split; [|vm_compute; reflexivity].
  rewrite (convert_decoded _ bytes_0_31 w (b58decode_b58encode bytes_0_31)).
  vm_compute. reflexivity.
Qed.

(** C10. For every input text the call ends in one of three ways: it
    returns a text, it raises the format error, or it raises the length
    error; all of them are [ValueError]s and the state is untouched.  A
    text with a non-ASCII character is rejected by the decoder with an
    instance of [ValueError], which the handler turns into the format
    error. *)
Theorem convert_outcomes (s : string) (w : world) :
  ((exists out, solana_private_key_to_decimal_list s w = (Return out, w))
   \/ solana_private_key_to_decimal_list s w = (Raise invalid_format, w)
   \/ (exists n,
        solana_private_key_to_decimal_list s w = (Raise (invalid_length n), w)))
  /\ (all_ascii s = false ->
      (exists e, base58.b58decode s = Raise e
                 /\ isinstance e ValueError = true)
      /\ solana_private_key_to_decimal_list s w = (Raise invalid_format, w)).
Proof.
  split.
  - destruct (base58.b58decode s) as [b|e] eqn:E.
    + rewrite (convert_decoded s b w E).
      destruct (not_in_32_64 (len b)); eauto.
    + right; left. exact (convert_undecoded s e w E).
  - intros Hascii.
    destruct (base58.b58decode s) as [b|e] eqn:E.
    + exfalso. unfold base58.b58decode, base58.scrub_input in E.
      unfold all_ascii in Hascii. rewrite Hascii in E. discriminate.
    + split; [|exact (convert_undecoded s e w E)].
      exists e. split; [reflexivity|].
      exact (b58decode_raises_ValueError s e E).
Qed.

Lemma convert_outcomes_witness :
  all_ascii (String (ascii_of_N 233) "abc") = false
  /\ ((exists out,
         solana_private_key_to_decimal_list (String (ascii_of_N 233) "abc") fresh
         = (Return out, fresh))
      \/ solana_private_key_to_decimal_list (String (ascii_of_N 233) "abc") fresh
         = (Raise invalid_format, fresh)
      \/ (exists n,
            solana_private_key_to_decimal_list (String (ascii_of_N 233) "abc") fresh
            = (Raise (invalid_length n), fresh)))
  /\ (exists e, base58.b58decode (String (ascii_of_N 233) "abc") = Raise e
                /\ isinstance e ValueError = true)
  /\ solana_private_key_to_decimal_list (String (ascii_of_N 233) "abc") fresh
     = (Raise invalid_format, fresh).
Proof.
  destruct (convert_outcomes (String (ascii_of_N 233) "abc") fresh)
    as [Hthree Hascii].
  split; [reflexivity|].
  split; [exact Hthree|].
  apply Hascii. reflexivity.
Defined.

(** Loading the module converts the example key and prints one line of
    64 fields. *)
Example module_body_prints :
  exists line,
    module_body fresh = (Return tt, mkWorld [line])
    /\ List.length (split_on "," line) = 64%nat.
Proof. eexists. split; vm_compute; reflexivity. Qed.

(* ===================================================================== *)
(** ** Further properties: the shape of the output and of the inputs     *)
(* ===================================================================== *)

Section Output.

Lemma string_length_app (s t : string) :
  String.length (s ++ t) = (String.length s + String.length t)%nat.
Proof. induction s as [|a s IH]; cbn; auto. Qed.

Lemma list_ascii_of_string_app (s t : string) :
  list_ascii_of_string (s ++ t)
  = (list_ascii_of_string s ++ list_ascii_of_string t)%list.
Proof. induction s as [|a s IH]; cbn; [reflexivity|]. rewrite IH. reflexivity. Qed.

Lemma join_cons2 (sep x y : string) (rest : list string) :
  join sep (x :: y :: rest) = x ++ sep ++ join sep (y :: rest).
Proof. reflexivity. Qed.

Lemma string_app_assoc (s t u : string) : (s ++ t) ++ u = s ++ t ++ u.
Proof. induction s as [|a s IH]; cbn; [reflexivity|]. rewrite IH. reflexivity. Qed.

Lemma join_app (sep : string) (xs ys : list string) :
  xs <> [] -> ys <> [] ->
  join sep (xs ++ ys) = join sep xs ++ sep ++ join sep ys.
Proof.
  intros Hxs Hys. induction xs as [|x xs IH]; [congruence|].
  destruct xs as [|x' xs].
  - destruct ys as [|y ys]; [congruence|]. reflexivity.
  - change ((x :: x' :: xs) ++ ys)%list with (x :: x' :: (xs ++ ys))%list.
    rewrite !join_cons2.
    change (x' :: (xs ++ ys))%list with ((x' :: xs) ++ ys)%list.
    rewrite IH by discriminate. rewrite !string_app_assoc. reflexivity.
Qed.

Lemma str_byte_numeral (x : byte) : byte_numeral (str (Byte.to_N x)) = true.
Proof. destruct x; vm_compute; reflexivity. Qed.

Lemma byte_numeral_digits (f : string) :
  byte_numeral f = true -> forallb is_digit (list_ascii_of_string f) = true.
Proof.
  unfold byte_numeral. intros H.
  apply andb_true_iff in H as [H _]. apply andb_true_iff in H as [_ H].
  exact H.
Qed.

Lemma byte_numeral_length (f : string) :
  byte_numeral f = true -> (1 <= String.length f <= 3)%nat.
Proof.
  unfold byte_numeral. intros H.
  apply andb_true_iff in H as [H Hhd]. apply andb_true_iff in H as [Hlen _].
  apply Nat.leb_le in Hlen. destruct f; [discriminate|]. cbn in *. lia.
Qed.

Lemma byte_numeral_no_leading_zero (f : string) :
  byte_numeral f = true ->
  f = "0" \/ exists c rest, f = String c rest /\ c <> "0"%char.
Proof.
  unfold byte_numeral. intros H.
  apply andb_true_iff in H as [H Hhd].
  destruct f as [|c rest]; [discriminate|].
  destruct (Ascii.eqb_spec c "0") as [->|Hne].
  - destruct rest; [left; reflexivity | discriminate].
  - right. eauto.
Qed.

Lemma join_characters (fields : list string) :
  Forall (fun f => forallb is_digit (list_ascii_of_string f) = true) fields ->
  forallb is_digit_or_comma (list_ascii_of_string (join "," fields)) = true.
Proof.
  induction 1 as [|f fields Hf _ IH]; [reflexivity|].
  assert (Hf' : forallb is_digit_or_comma (list_ascii_of_string f) = true).
  { apply forallb_forall. intros c Hc. unfold is_digit_or_comma.
    rewrite (proj1 (forallb_forall _ _) Hf c Hc). reflexivity. }
  destruct fields as [|g fields]; [exact Hf'|].
  rewrite join_cons2, !list_ascii_of_string_app, !forallb_app.
  rewrite Hf', IH. reflexivity.
Qed.

Lemma join_length_bounds (fields : list string) :
  fields <> [] ->
  Forall (fun f => (1 <= String.length f <= 3)%nat) fields ->
  (2 * List.length fields - 1 <= String.length (join "," fields)
   <= 4 * List.length fields - 1)%nat.
Proof.
  intros Hne Hall. induction Hall as [|f fields Hf _ IH]; [congruence|].
  destruct fields as [|g fields].
  - cbn [join List.length]. lia.
  - rewrite join_cons2, !string_length_app.
    specialize (IH ltac:(discriminate)).
    cbn [List.length String.length] in *. lia.
Qed.

(** The decimal list determines the bytes. *)
Lemma format_injective (b1 b2 : list byte) :
  b1 <> [] -> b2 <> [] ->
  join "," (map str (map Byte.to_N b1)) = join "," (map str (map Byte.to_N b2)) ->
  b1 = b2.
Proof.
  intros H1 H2 Heq.
  assert (Hsplit : forall b : list byte,
             b <> [] ->
             map parse_uint (split_on "," (join "," (map str (map Byte.to_N b))))
             = map Some (map Byte.to_N b)).
  { intros b Hb. rewrite split_on_join.
    - rewrite map_map. apply map_ext. intros n. apply parse_uint_str.
    - destruct b; [congruence | discriminate].
    - apply Forall_forall. intros f Hf.
      apply in_map_iff in Hf as (n & <- & _). apply str_no_comma. }
  pose proof (Hsplit b1 H1) as E1. rewrite Heq, (Hsplit b2 H2) in E1.
  rewrite <- (map_byte_of_digit_to_N b1), <- (map_byte_of_digit_to_N b2).
  f_equal. clear -E1. symmetry.
  revert E1. generalize (map Byte.to_N b1) as l1, (map Byte.to_N b2) as l2.
  intros l1 l2. revert l1.
  induction l2 as [|a l2 IH]; intros [|c l1] E; cbn in E; try discriminate; auto.
  inversion E; subst. f_equal. auto.
Qed.

Lemma not_in_32_64_false_inv (b : list byte) :
  not_in_32_64 (len b) = false ->
  List.length b = 32%nat \/ List.length b = 64%nat.
Proof.
  unfold not_in_32_64, len. intros H.
  apply negb_false_iff, orb_true_iff in H as [H|H]; apply N.eqb_eq in H; lia.
Qed.

(** What a returning call has done. *)
Lemma convert_returns_inv (s out : string) (w w' : world) :
  solana_private_key_to_decimal_list s w = (Return out, w') ->
  exists b,
    base58.b58decode s = Return b
    /\ (List.length b = 32%nat \/ List.length b = 64%nat)
    /\ out = join "," (map str (map Byte.to_N b))
    /\ w' = w.
Proof.
  intros H. destruct (base58.b58decode s) as [b|e] eqn:E.
  - rewrite (convert_decoded s b w E) in H.
    destruct (not_in_32_64 (len b)) eqn:Hlen; [discriminate|].
    inversion H; subst. exists b. repeat split; auto.
    apply not_in_32_64_false_inv. exact Hlen.
  - rewrite (convert_undecoded s e w E) in H. discriminate.
Qed.

Lemma key_fields_numerals (b : list byte) :
  Forall (fun f => byte_numeral f = true) (map str (map Byte.to_N b)).
Proof.
  apply Forall_forall. intros f Hf.
  apply in_map_iff in Hf as (n & <- & Hn).
  apply in_map_iff in Hn as (x & <- & _). apply str_byte_numeral.
Qed.

Lemma key_fields_split (b : list byte) :
  b <> [] ->
  split_on "," (join "," (map str (map Byte.to_N b)))
  = map str (map Byte.to_N b).
Proof.
  intros Hb. apply split_on_join.
  - destruct b; [congruence | discriminate].
  - apply Forall_forall. intros f Hf.
    apply in_map_iff in Hf as (n & <- & _). apply str_no_comma.
Qed.

Lemma key_nonempty (b : list byte) :
  List.length b = 32%nat \/ List.length b = 64%nat -> b <> [].
Proof. intros H ->. cbn in H. lia. Qed.

End Output.

Section Inputs.

Import base58.

Lemma lstrip_length_add (s : string) :
  (String.length (lstrip "1" s) + leading_ones s)%nat = String.length s.
Proof.
  induction s as [|a s IH]; [reflexivity|].
  cbn [lstrip leading_ones]. destruct (Ascii.eqb a "1").
  - cbn [String.length]. lia.
  - lia.
Qed.

Lemma to_bytes_length_le (n : N) (m : nat) :
  n < 256 ^ N.of_nat m -> (List.length (to_bytes n) <= m)%nat.
Proof.
  intros Hn. unfold to_bytes. rewrite length_map.
  destruct (digits_spec 256 ltac:(lia) n) as [Hval Hcan].
  destruct (digits 256 n) as [|d ds]; cbn [List.length]; [lia|].
  pose proof (canonical_ge 256 d ds ltac:(lia) Hcan) as Hge.
  rewrite Hval in Hge.
  assert (Hpow : 256 ^ N.of_nat (List.length ds) < 256 ^ N.of_nat m) by lia.
  apply N.pow_lt_mono_r_iff in Hpow; lia.
Qed.

(** The decoder never returns more bytes than the text has characters. *)
Lemma b58decode_length_le (s : string) (b : list byte) :
  b58decode s = Return b -> (List.length b <= String.length s)%nat.
Proof.
  intros H. destruct (base58_digits s) as [ds|] eqn:E.
  - rewrite (b58decode_digits s ds E) in H. inversion H; subst.
    destruct (lstrip_digits s ds E) as (ds' & Hd & Hv).
    rewrite length_app, repeat_length, <- Hv.
    pose proof (lstrip_length_add s) as Hlen.
    rewrite <- (base58_digits_length _ _ Hd) in Hlen.
    assert (Hle : (List.length (to_bytes (undigits 58 ds')) <= List.length ds')%nat).
    { apply to_bytes_length_le.
      pose proof (undigits_lt 58 ds' ltac:(lia) (base58_digits_bound _ _ Hd)).
      assert (58 ^ N.of_nat (List.length ds') <= 256 ^ N.of_nat (List.length ds'))
        by (apply N.pow_le_mono_l; lia).
      lia. }
    lia.
  - destruct (b58decode_invalid s E) as (e & He & _). congruence.
Qed.

End Inputs.

(** X1. A call returns a text only when the input decoded to 32 or 64
    bytes; the text is then the decimal list of exactly those bytes and
    the interpreter state is the one the call started in. *)
Theorem convert_returns_only_keys (s out : string) (w w' : world) :
  solana_private_key_to_decimal_list s w = (Return out, w') ->
  exists b,
    base58.b58decode s = Return b
    /\ (List.length b = 32%nat \/ List.length b = 64%nat)
    /\ out = join "," (map str (map Byte.to_N b))
    /\ w' = w.
Proof. apply convert_returns_inv. Qed.

Lemma convert_returns_only_keys_witness :
  solana_private_key_to_decimal_list text_0_31 fresh
  = (Return decimal_0_31, fresh)
  /\ exists b,
      base58.b58decode text_0_31 = Return b
      /\ (List.length b = 32%nat \/ List.length b = 64%nat)
      /\ decimal_0_31 = join "," (map str (map Byte.to_N b))
      /\ fresh = fresh.
Proof.
  split; [vm_compute; reflexivity|].
  apply (convert_returns_only_keys text_0_31 decimal_0_31 fresh fresh).
  vm_compute; reflexivity.
Defined.

(** X2. A returned text consists of decimal digits and commas only: no
    sign, no space, no bracket. *)
Theorem convert_output_characters (s out : string) (w w' : world) :
  solana_private_key_to_decimal_list s w = (Return out, w') ->
  forallb is_digit_or_comma (list_ascii_of_string out) = true.
Proof.
  intros H. apply convert_returns_inv in H as (b & _ & _ & -> & _).
  apply join_characters.
  eapply Forall_impl; [|apply key_fields_numerals].
  intros f. apply byte_numeral_digits.
Qed.

Lemma convert_output_characters_witness :
  solana_private_key_to_decimal_list text_0_31 fresh
  = (Return decimal_0_31, fresh)
  /\ forallb is_digit_or_comma (list_ascii_of_string decimal_0_31) = true.
Proof.
  split; [vm_compute; reflexivity|].
  apply (convert_output_characters text_0_31 decimal_0_31 fresh fresh).
  vm_compute; reflexivity.
Defined.

(** X3. Every field of a returned text has one to three characters and
    is either "0" or starts with a character other than '0': bytes are
    written without leading zeros. *)
Theorem convert_fields_no_leading_zero (s out : string) (w w' : world) :
  solana_private_key_to_decimal_list s w = (Return out, w') ->
  Forall (fun f =>
            (1 <= String.length f <= 3)%nat
            /\ (f = "0" \/ exists c rest, f = String c rest /\ c <> "0"%char))
         (split_on "," out).
Proof.
  intros H. apply convert_returns_inv in H as (b & _ & Hlen & -> & _).
  rewrite key_fields_split by (apply key_nonempty; exact Hlen).
  eapply Forall_impl; [|apply key_fields_numerals].
  intros f Hf. split.
  - apply byte_numeral_length. exact Hf.
  - apply byte_numeral_no_leading_zero. exact Hf.
Qed.

Lemma convert_fields_no_leading_zero_witness :
  solana_private_key_to_decimal_list text_0_31 fresh
  = (Return decimal_0_31, fresh)
  /\ Forall (fun f =>
               (1 <= String.length f <= 3)%nat
               /\ (f = "0" \/ exists c rest, f = String c rest /\ c <> "0"%char))
            (split_on "," decimal_0_31).
Proof.
  split; [vm_compute; reflexivity|].
  apply (convert_fields_no_leading_zero text_0_31 decimal_0_31 fresh fresh).
  vm_compute; reflexivity.
Defined.

(** X4. A returned text for [n] decoded bytes has between [2n - 1] and
    [4n - 1] characters: 63 to 127 for a 32-byte key, 127 to 255 for a
    64-byte one. *)
Theorem convert_output_length
        (s out : string) (b : list byte) (w w' : world) :
  solana_private_key_to_decimal_list s w = (Return out, w') ->
  base58.b58decode s = Return b ->
  (2 * List.length b - 1 <= String.length out <= 4 * List.length b - 1)%nat.
Proof.
  intros H Hdec. apply convert_returns_inv in H as (b' & Hdec' & Hlen & -> & _).
  rewrite Hdec in Hdec'. inversion Hdec'; subst b'.
  pose proof (join_length_bounds (map str (map Byte.to_N b))) as Hb.
  rewrite !length_map in Hb. apply Hb.
  - apply key_nonempty in Hlen. destruct b; [congruence | discriminate].
  - eapply Forall_impl; [|apply key_fields_numerals].
    intros f. apply byte_numeral_length.
Qed.

Lemma convert_output_length_witness :
  solana_private_key_to_decimal_list text_0_31 fresh
  = (Return decimal_0_31, fresh)
  /\ base58.b58decode text_0_31 = Return bytes_0_31
  /\ (2 * List.length bytes_0_31 - 1 <= String.length decimal_0_31
      <= 4 * List.length bytes_0_31 - 1)%nat.
Proof.
  split; [vm_compute; reflexivity|].
  split; [vm_compute; reflexivity|].
  apply (convert_output_length text_0_31 decimal_0_31 bytes_0_31 fresh fresh).
  - vm_compute; reflexivity.
  - vm_compute; reflexivity.
Defined.

(** X5. The returned text determines the key: two inputs for which the
    calls return the same text decode to the same bytes. *)
Theorem convert_output_determines_key
        (s1 s2 out : string) (w1 w1' w2 w2' : world) :
  solana_private_key_to_decimal_list s1 w1 = (Return out, w1') ->
  solana_private_key_to_decimal_list s2 w2 = (Return out, w2') ->
  base58.b58decode s1 = base58.b58decode s2.
Proof.
  intros H1 H2.
  apply convert_returns_inv in H1 as (b1 & Hd1 & Hl1 & E1 & _).
  apply convert_returns_inv in H2 as (b2 & Hd2 & Hl2 & E2 & _).
  rewrite Hd1, Hd2. f_equal.
  apply format_injective; try (apply key_nonempty; assumption). congruence.
Qed.

Lemma convert_output_determines_key_witness :
  solana_private_key_to_decimal_list text_0_31 fresh
  = (Return decimal_0_31, fresh)
  /\ solana_private_key_to_decimal_list text_0_31 (mkWorld ["earlier"])
     = (Return decimal_0_31, mkWorld ["earlier"])
  /\ base58.b58decode text_0_31 = base58.b58decode text_0_31.
Proof.
  split; [vm_compute; reflexivity|].
  split; [vm_compute; reflexivity|].
  apply (convert_output_determines_key
           text_0_31 text_0_31 decimal_0_31
           fresh fresh (mkWorld ["earlier"]) (mkWorld ["earlier"])).
  - vm_compute; reflexivity.
  - vm_compute; reflexivity.
Defined.

(** X6. The decimal list of a 64-byte keypair is the decimal list of its
    first 32 bytes, a comma, and the decimal list of its last 32 bytes. *)
Theorem convert_keypair_concat
        (s s1 s2 : string) (b1 b2 : list byte) (w : world) :
  base58.b58decode s = Return (b1 ++ b2)%list ->
  base58.b58decode s1 = Return b1 ->
  base58.b58decode s2 = Return b2 ->
  List.length b1 = 32%nat ->
  List.length b2 = 32%nat ->
  exists o1 o2,
    solana_private_key_to_decimal_list s1 w = (Return o1, w)
    /\ solana_private_key_to_decimal_list s2 w = (Return o2, w)
    /\ solana_private_key_to_decimal_list s w = (Return (o1 ++ "," ++ o2), w).
Proof.
  intros Hd Hd1 Hd2 Hl1 Hl2.
  exists (join "," (map str (map Byte.to_N b1))),
         (join "," (map str (map Byte.to_N b2))).
  rewrite (convert_decoded s1 b1 w Hd1), (convert_decoded s2 b2 w Hd2),
          (convert_decoded s _ w Hd).
  rewrite !not_in_32_64_false
    by (rewrite ?length_app; auto; right; lia).
  rewrite !map_app, join_app.
  - repeat split.
  - destruct b1; [cbn in Hl1; lia | discriminate].
  - destruct b2; [cbn in Hl2; lia | discriminate].
Qed.

Lemma convert_keypair_concat_witness :
  base58.b58decode (base58.b58encode (bytes_0_31 ++ bytes_0_31))
  = Return (bytes_0_31 ++ bytes_0_31)%list
  /\ base58.b58decode text_0_31 = Return bytes_0_31
  /\ List.length bytes_0_31 = 32%nat
  /\ exists o1 o2,
      solana_private_key_to_decimal_list text_0_31 fresh = (Return o1, fresh)
      /\ solana_private_key_to_decimal_list text_0_31 fresh = (Return o2, fresh)
      /\ solana_private_key_to_decimal_list
           (base58.b58encode (bytes_0_31 ++ bytes_0_31)) fresh
         = (Return (o1 ++ "," ++ o2), fresh).
Proof.
  split; [vm_compute; reflexivity|].
  split; [vm_compute; reflexivity|].
  split; [reflexivity|].
  apply (convert_keypair_concat
           (base58.b58encode (bytes_0_31 ++ bytes_0_31)) text_0_31 text_0_31
           bytes_0_31 bytes_0_31 fresh).
  - vm_compute; reflexivity.
  - vm_compute; reflexivity.
  - vm_compute; reflexivity.
  - reflexivity.
  - reflexivity.
Defined.

Lemma module_body_example_usage :
  module_body = example_usage private_key_base58.
Proof. reflexivity. Qed.

(** X7. Running the example with a key text either prints one line, the
    decimal list of the 32 or 64 decoded bytes, after what was printed
    before, or raises a [ValueError] and prints nothing. *)
Theorem example_usage_prints_or_raises (key : string) (w : world) :
  (exists b,
     base58.b58decode key = Return b
     /\ (List.length b = 32%nat \/ List.length b = 64%nat)
     /\ example_usage key w
        = (Return tt,
           mkWorld (stdout w ++ [join "," (map str (map Byte.to_N b))])))
  \/ (exists e,
        example_usage key w = (Raise e, w) /\ cls e = ValueError).
Proof.
  unfold example_usage, bind, print.
  destruct (base58.b58decode key) as [b|e] eqn:E.
  - rewrite (convert_decoded key b w E).
    destruct (not_in_32_64 (len b)) eqn:Hlen.
    + right. eexists. split; reflexivity.
    + left. exists b. repeat split.
      apply not_in_32_64_false_inv. exact Hlen.
  - rewrite (convert_undecoded key e w E).
    right. eexists. split; reflexivity.
Qed.

(** X8. For every byte sequence of 32 or 64 bytes, the call on its
    Base58 text returns the decimal list of that byte sequence. *)
Theorem convert_b58encode (b : list byte) (w : world) :
  List.length b = 32%nat \/ List.length b = 64%nat ->
  solana_private_key_to_decimal_list (base58.b58encode b) w
  = (Return (join "," (map str (map Byte.to_N b))), w).
Proof.
  intros Hlen.
  rewrite (convert_decoded _ b w (b58decode_b58encode b)).
  rewrite not_in_32_64_false by exact Hlen. reflexivity.
Qed.

Lemma convert_b58encode_witness :
  (List.length (bytes_0_31 ++ bytes_0_31) = 32%nat
   \/ List.length (bytes_0_31 ++ bytes_0_31) = 64%nat)
  /\ solana_private_key_to_decimal_list
       (base58.b58encode (bytes_0_31 ++ bytes_0_31)) fresh
     = (Return (join "," (map str (map Byte.to_N (bytes_0_31 ++ bytes_0_31)))),
        fresh).
Proof.
  split; [right; reflexivity|].
  apply (convert_b58encode (bytes_0_31 ++ bytes_0_31) fresh).
  right; reflexivity.
Defined.

(** X9. A text with fewer characters than 32 is never converted: the
    decoder returns no more bytes than the text has characters, so a call
    that returns was given at least 32 characters. *)
Theorem convert_needs_32_characters (s out : string) (w w' : world) :
  solana_private_key_to_decimal_list s w = (Return out, w') ->
  (32 <= String.length s)%nat.
Proof.
  intros H. apply convert_returns_inv in H as (b & Hdec & Hlen & _ & _).
  pose proof (b58decode_length_le s b Hdec). lia.
Qed.

Lemma convert_needs_32_characters_witness :
  solana_private_key_to_decimal_list text_0_31 fresh
  = (Return decimal_0_31, fresh)
  /\ (32 <= String.length text_0_31)%nat.
Proof.
  split; [vm_compute; reflexivity|].
  apply (convert_needs_32_characters text_0_31 decimal_0_31 fresh fresh).
  vm_compute; reflexivity.
Defined.
